(** * Random-shuffle planner: [ray/data/_internal/planner/random_shuffle.py]

    A shallow embedding of [generate_random_shuffle_fn] and of the transform
    [fn] it returns, with the Python store made explicit:

    - the captured variable [ray_remote_args], which [fn] rebinds through
      [nonlocal], is a cell of the state (the state describes the
      surroundings of one constructed transform);
    - [MapTransformer] objects are shared and mutable, so they live in a
      store indexed by address and a [TaskContext] holds an address;
    - the [DataContext] object and the wall clock are part of the state;
    - every call that leaves the module (the clock, the transformer's
      setter, the constructors of the task spec and of the schedulers,
      [execute]) is recorded in a trace, most recent call first. *)

From Stdlib Require Import ZArith List Lia.
From stdpp Require Import base option gmap strings list.

Local Open Scope Z_scope.

(** ** Data passed through the planner *)

(** Values of a [Dict[str, Any]]; the planner never looks inside them. *)
Inductive PyVal :=
| PyInt (z : Z)
| PyStr (s : string)
| PyBool (b : bool).

(** [Optional[Dict[str, Any]]]: remote-execution arguments, in insertion
    order. *)
Definition RayRemoteArgs := option (list (string * PyVal)).

(** A block-size limit: a number of bytes or [float("inf")]. *)
Inductive BlockSize :=
| Bytes (n : Z)
| FloatInf.

(** Addresses of [MapTransformer] objects. *)
Definition addr := nat.

(** Modelled from the spec: the class [MapTransformer] is not under src/.
    Section 6 gives it [apply(blocks, ctx)] and [setTargetMaxBlockSize(float)];
    the object is kept as the identity of its transform functions and the
    block-size limit the setter writes ([None] until it is first set). *)
Record MapTransformer := {
  transform_fns : nat;
  mt_target_max_block_size : option BlockSize
}.

(** [RefBundle]: the planner only reads [len(r.blocks)]. *)
Record RefBundle := {
  blocks : list nat;
  owns_blocks : bool
}.

(** [TaskContext], with the three attributes the planner reads.  An
    [Optional[MapTransformer]] is an optional address; the object defines
    neither [__bool__] nor [__len__], so it is truthy exactly when it is
    not [None]. *)
Record TaskContext := {
  task_idx : nat;
  target_max_block_size : BlockSize;
  upstream_map_transformer : option addr;
  upstream_map_ray_remote_args : RayRemoteArgs
}.

(** Modelled from the spec: the enumeration [ShuffleStrategy] of
    [ray.data.context] is not under src/.  The source names only
    [SORT_SHUFFLE_PUSH_BASED]; every other member takes the [else] branch. *)
Inductive ShuffleStrategy :=
| SORT_SHUFFLE_PULL_BASED
| SORT_SHUFFLE_PUSH_BASED
| HASH_SHUFFLE.

Record DataContext := {
  shuffle_strategy : ShuffleStrategy
}.

(** Modelled from the spec: the constant [INT32_MAX] of [ray.util.common]
    is not under src/; it is the largest 32-bit signed integer. *)
Definition INT32_MAX : Z := 2 ^ 31 - 1.

(** The closure [upstream_map_fn] of lines 59-60: it captures the
    transformer and the context of the invocation that built it. *)
Record UpstreamMapFn := {
  umf_map_transformer : addr;
  umf_ctx : TaskContext
}.

(** The arguments of [ShuffleTaskSpec(...)], lines 66-71. *)
Record ShuffleTaskSpec := {
  target_shuffle_max_block_size : BlockSize;
  random_shuffle : bool;
  random_seed : Z;
  upstream_map_fn : option UpstreamMapFn
}.

Inductive SchedulerKind :=
| PushBasedShuffleTaskScheduler
| PullBasedShuffleTaskScheduler.

(** The arguments of [scheduler.execute(...)], lines 82-91. *)
Record ExecuteCall := {
  ex_refs : list RefBundle;
  output_num_blocks : Z;
  task_ctx : TaskContext;
  map_ray_remote_args : RayRemoteArgs;
  reduce_ray_remote_args : RayRemoteArgs;
  _debug_limit_execution_to_num_blocks : option Z
}.

Definition StatsDict := list (string * Z).
Definition AllToAllTransformFnResult := (list RefBundle * StatsDict)%type.

(** ** Calls that leave the module *)

Inductive Event :=
| EvTimeNs (t : Z)
| EvSetTargetMaxBlockSize (a : addr) (size : BlockSize)
| EvShuffleTaskSpec (spec : ShuffleTaskSpec)
| EvScheduler (k : SchedulerKind) (spec : ShuffleTaskSpec)
| EvExecute (k : SchedulerKind) (spec : ShuffleTaskSpec) (call : ExecuteCall).

Inductive PyExn :=
| NotImplementedError (msg : string)
| SchedulerError (code : nat).

Inductive Res (A : Type) :=
| Ok (a : A)
| Raise (e : PyExn).
Arguments Ok {A} a.
Arguments Raise {A} e.

(** ** The store *)

Record State := {
  clock_ns : Z;
  data_context : DataContext;
  transformers : gmap addr MapTransformer;
  ray_remote_args : RayRemoteArgs;
  trace : list Event
}.

(** State and exceptions: a raised exception keeps the state reached. *)
Definition M (A : Type) : Type := State -> Res A * State.

#[global] Instance M_ret : MRet M := fun A a st => (Ok a, st).
#[global] Instance M_bind : MBind M := fun A B f m st =>
  match m st with
  | (Ok a, st') => f a st'
  | (Raise e, st') => (Raise e, st')
  end.

Definition raise {A} (e : PyExn) : M A := fun st => (Raise e, st).

Definition emit (e : Event) : M unit := fun st =>
  (Ok tt, {| clock_ns := clock_ns st; data_context := data_context st;
             transformers := transformers st;
             ray_remote_args := ray_remote_args st;
             trace := e :: trace st |}).

(** Reading and rebinding the captured variable [ray_remote_args]. *)
Definition load_ray_remote_args : M RayRemoteArgs := fun st =>
  (Ok (ray_remote_args st), st).

Definition store_ray_remote_args (v : RayRemoteArgs) : M unit := fun st =>
  (Ok tt, {| clock_ns := clock_ns st; data_context := data_context st;
             transformers := transformers st;
             ray_remote_args := v;
             trace := trace st |}).

(** [data_context.shuffle_strategy], read from the shared object. *)
Definition load_shuffle_strategy : M ShuffleStrategy := fun st =>
  (Ok (shuffle_strategy (data_context st)), st).

(** [time.time_ns()]. *)
Definition time_ns : M Z := fun st =>
  (Ok (clock_ns st), {| clock_ns := clock_ns st; data_context := data_context st;
                        transformers := transformers st;
                        ray_remote_args := ray_remote_args st;
                        trace := EvTimeNs (clock_ns st) :: trace st |}).

(** Modelled from the spec: [MapTransformer.set_target_max_block_size] is not
    under src/; it overwrites the limit of the object at [a]. *)
Definition set_limit (size : BlockSize) (mt : MapTransformer) : MapTransformer :=
  {| transform_fns := transform_fns mt; mt_target_max_block_size := Some size |}.

Definition set_target_max_block_size (a : addr) (size : BlockSize) : M unit := fun st =>
  (Ok tt, {| clock_ns := clock_ns st; data_context := data_context st;
             transformers := alter (set_limit size) a (transformers st);
             ray_remote_args := ray_remote_args st;
             trace := EvSetTargetMaxBlockSize a size :: trace st |}).

(** ** Python expressions of the source *)

(** [sum(xs)]: the built-in starts from 0 and adds from the left. *)
Definition py_sum (xs : list Z) : Z := fold_left Z.add xs 0.

(** [a or b] for [a : Optional[int]]: [None] and [0] are falsy. *)
Definition py_or (a : option Z) (b : Z) : Z :=
  match a with
  | Some n => if n =? 0 then b else n
  | None => b
  end.

(** [a is not None]. *)
Definition is_not_None {A} (a : option A) : bool :=
  match a with Some _ => true | None => false end.

Definition push_based_msg : string :=
  "Push-based shuffle doesn't support setting num_blocks yet.".

(** The body of the two schedulers' [execute] is outside this module: it
    may return a result or raise, and may update the transformers it is
    handed. *)
Definition SchedulerExecute : Type :=
  SchedulerKind -> ShuffleTaskSpec -> ExecuteCall ->
  gmap addr MapTransformer -> Res AllToAllTransformFnResult * gmap addr MapTransformer.

Section RandomShuffle.

Variable scheduler_execute : SchedulerExecute.

Definition new_ShuffleTaskSpec (size : BlockSize) (shuffle : bool) (seed : Z)
    (f : option UpstreamMapFn) : M ShuffleTaskSpec :=
  let spec := {| target_shuffle_max_block_size := size; random_shuffle := shuffle;
                 random_seed := seed; upstream_map_fn := f |} in
  emit (EvShuffleTaskSpec spec) ;; mret spec.

Definition new_scheduler (k : SchedulerKind) (spec : ShuffleTaskSpec)
    : M (SchedulerKind * ShuffleTaskSpec) :=
  emit (EvScheduler k spec) ;; mret (k, spec).

Definition execute (scheduler : SchedulerKind * ShuffleTaskSpec) (call : ExecuteCall)
    : M AllToAllTransformFnResult := fun st =>
  let (r, h) := scheduler_execute scheduler.1 scheduler.2 call (transformers st) in
  (r, {| clock_ns := clock_ns st; data_context := data_context st;
         transformers := h;
         ray_remote_args := ray_remote_args st;
         trace := EvExecute scheduler.1 scheduler.2 call :: trace st |}).

(** The transform [fn] of lines 37-91.  [seed], [num_outputs] and
    [_debug_limit_shuffle_execution_to_num_blocks] are the captured
    variables that [fn] only reads. *)
Definition fn (seed : Z) (num_outputs : option Z)
    (_debug_limit_shuffle_execution_to_num_blocks : option Z)
    (refs : list RefBundle) (ctx : TaskContext) : M AllToAllTransformFnResult :=
  let num_input_blocks := py_sum (map (fun r => Z.of_nat (length (blocks r))) refs) in
  let map_transformer := upstream_map_transformer ctx in
  upstream_map_fn ←
    match map_transformer with
    | Some mt =>
        set_target_max_block_size mt FloatInf ;;
        store_ray_remote_args (upstream_map_ray_remote_args ctx) ;;
        mret (Some {| umf_map_transformer := mt; umf_ctx := ctx |})
    | None => mret None
    end ;
  shuffle_spec ← new_ShuffleTaskSpec (target_max_block_size ctx) true seed upstream_map_fn ;
  strategy ← load_shuffle_strategy ;
  scheduler ←
    match strategy with
    | SORT_SHUFFLE_PUSH_BASED =>
        if is_not_None num_outputs
        then raise (NotImplementedError push_based_msg)
        else new_scheduler PushBasedShuffleTaskScheduler shuffle_spec
    | _ => new_scheduler PullBasedShuffleTaskScheduler shuffle_spec
    end ;
  args ← load_ray_remote_args ;
  execute scheduler
    {| ex_refs := refs;
       output_num_blocks := py_or num_outputs num_input_blocks;
       task_ctx := ctx;
       map_ray_remote_args := args;
       reduce_ray_remote_args := args;
       _debug_limit_execution_to_num_blocks :=
         _debug_limit_shuffle_execution_to_num_blocks |}.

(** [generate_random_shuffle_fn], lines 24-93.  The [DataContext] argument
    is the shared object of the state; the argument [ray_remote_args] is
    bound to the cell that [fn] later rebinds. *)
Definition generate_random_shuffle_fn (seed : option Z) (num_outputs : option Z)
    (ray_remote_args0 : RayRemoteArgs)
    (_debug_limit_shuffle_execution_to_num_blocks : option Z)
    : M (list RefBundle -> TaskContext -> M AllToAllTransformFnResult) :=
  store_ray_remote_args ray_remote_args0 ;;
  seed' ←
    match seed with
    | Some s => mret s
    | None => t ← time_ns ; mret (t `mod` INT32_MAX)
    end ;
  mret (fn seed' num_outputs _debug_limit_shuffle_execution_to_num_blocks).

End RandomShuffle.

(** ** Running a transform: invocations and what happens between them *)

(** Between two invocations of one transform the surroundings may change
    the configured strategy and time passes; a raised exception ends an
    invocation, not the life of the transform. *)
Inductive Action :=
| Invoke (refs : list RefBundle) (ctx : TaskContext)
| SetShuffleStrategy (s : ShuffleStrategy)
| Sleep (dt : Z).

Definition TransformFn := list RefBundle -> TaskContext -> M AllToAllTransformFnResult.

Definition step (f : TransformFn) (a : Action) (st : State)
    : option (Res AllToAllTransformFnResult) * State :=
  match a with
  | Invoke refs ctx => let (r, st') := f refs ctx st in (Some r, st')
  | SetShuffleStrategy s =>
      (None, {| clock_ns := clock_ns st; data_context := {| shuffle_strategy := s |};
                transformers := transformers st;
                ray_remote_args := ray_remote_args st;
                trace := trace st |})
  | Sleep dt =>
      (None, {| clock_ns := clock_ns st + dt; data_context := data_context st;
                transformers := transformers st;
                ray_remote_args := ray_remote_args st;
                trace := trace st |})
  end.

Fixpoint run (f : TransformFn) (acts : list Action) (st : State)
    : list (option (Res AllToAllTransformFnResult)) * State :=
  match acts with
  | [] => ([], st)
  | a :: rest =>
      let (r, st1) := step f a st in
      let (rs, st2) := run f rest st1 in
      (r :: rs, st2)
  end.

(** ** Reading a trace (most recent call first) *)

Definition executes (tr : list Event) : list (SchedulerKind * ShuffleTaskSpec * ExecuteCall) :=
  omap (fun e => match e with EvExecute k s c => Some (k, s, c) | _ => None end) tr.

Definition schedulers (tr : list Event) : list (SchedulerKind * ShuffleTaskSpec) :=
  omap (fun e => match e with EvScheduler k s => Some (k, s) | _ => None end) tr.

Definition specs_built (tr : list Event) : list ShuffleTaskSpec :=
  omap (fun e => match e with EvShuffleTaskSpec s => Some s | _ => None end) tr.

Definition overrides (tr : list Event) : list (addr * BlockSize) :=
  omap (fun e => match e with EvSetTargetMaxBlockSize a s => Some (a, s) | _ => None end) tr.

Definition clock_reads (tr : list Event) : list Z :=
  omap (fun e => match e with EvTimeNs t => Some t | _ => None end) tr.

(** The invocations of a run, and those whose context carries an upstream
    transformer, in the order they are made. *)
Definition invocations (acts : list Action) : list (list RefBundle * TaskContext) :=
  omap (fun a => match a with Invoke refs ctx => Some (refs, ctx) | _ => None end) acts.

Definition fused_invocations (acts : list Action) : list addr :=
  omap (fun a => match a with
                 | Invoke _ ctx => upstream_map_transformer ctx
                 | _ => None
                 end) acts.

(** ** One invocation and one run in closed form *)

(** The definitions of this part are not taken from the source: they
    describe, branch by branch, the state and the calls that [fn] produces.
    [fn_rejected], [fn_executed] and [run_trace] below prove that the code
    agrees with them. *)

(** The state when line 66 is reached. *)
Definition fusion_state (ctx : TaskContext) (st : State) : State :=
  match upstream_map_transformer ctx with
  | Some a =>
      {| clock_ns := clock_ns st; data_context := data_context st;
         transformers := alter (set_limit FloatInf) a (transformers st);
         ray_remote_args := upstream_map_ray_remote_args ctx;
         trace := EvSetTargetMaxBlockSize a FloatInf :: trace st |}
  | None => st
  end.

Definition built_spec (seed : Z) (ctx : TaskContext) : ShuffleTaskSpec :=
  {| target_shuffle_max_block_size := target_max_block_size ctx;
     random_shuffle := true;
     random_seed := seed;
     upstream_map_fn :=
       match upstream_map_transformer ctx with
       | Some a => Some {| umf_map_transformer := a; umf_ctx := ctx |}
       | None => None
       end |}.

Definition is_push_based (s : ShuffleStrategy) : bool :=
  match s with SORT_SHUFFLE_PUSH_BASED => true | _ => false end.

Definition scheduler_for (s : ShuffleStrategy) : SchedulerKind :=
  if is_push_based s then PushBasedShuffleTaskScheduler else PullBasedShuffleTaskScheduler.

Definition rejected (st : State) (num_outputs : option Z) : bool :=
  is_push_based (shuffle_strategy (data_context st)) && is_not_None num_outputs.

Definition built_call (num_outputs dbg : option Z) (refs : list RefBundle)
    (ctx : TaskContext) (st : State) : ExecuteCall :=
  {| ex_refs := refs;
     output_num_blocks :=
       py_or num_outputs (py_sum (map (fun r => Z.of_nat (length (blocks r))) refs));
     task_ctx := ctx;
     map_ray_remote_args := ray_remote_args (fusion_state ctx st);
     reduce_ray_remote_args := ray_remote_args (fusion_state ctx st);
     _debug_limit_execution_to_num_blocks := dbg |}.

(** The calls one invocation adds to the trace. *)
Definition fn_events (seed : Z) (num_outputs dbg : option Z) (refs : list RefBundle)
    (ctx : TaskContext) (st : State) : list Event :=
  let k := scheduler_for (shuffle_strategy (data_context st)) in
  let spec := built_spec seed ctx in
  (if rejected st num_outputs then []
   else [EvExecute k spec (built_call num_outputs dbg refs ctx st); EvScheduler k spec])
  ++ EvShuffleTaskSpec spec
  :: match upstream_map_transformer ctx with
     | Some a => [EvSetTargetMaxBlockSize a FloatInf]
     | None => []
     end.

(** The calls a whole run adds to the trace. *)
Fixpoint run_events (scheduler_execute : SchedulerExecute) (seed : Z)
    (num_outputs dbg : option Z) (acts : list Action) (st : State) : list Event :=
  match acts with
  | [] => []
  | a :: rest =>
      run_events scheduler_execute seed num_outputs dbg rest
        (step (fn scheduler_execute seed num_outputs dbg) a st).2
      ++ match a with
         | Invoke refs ctx => fn_events seed num_outputs dbg refs ctx st
         | _ => []
         end
  end.

(** The binding of [ray_remote_args] after a run that starts from the
    binding [cur]: the upstream arguments of the latest invocation that
    had a transformer attached, if there is one. *)
Definition rebound_args (acts : list Action) (cur : RayRemoteArgs) : RayRemoteArgs :=
  fold_left (fun cur a =>
               match a with
               | Invoke _ ctx =>
                   match upstream_map_transformer ctx with
                   | Some _ => upstream_map_ray_remote_args ctx
                   | None => cur
                   end
               | _ => cur
               end) acts cur.

(** ** Concrete inputs *)

(** A scheduler that hands its input bundles back with empty statistics. *)
Definition echo_execute : SchedulerExecute :=
  fun _ _ call h => (Ok (ex_refs call, []), h).

Definition bundle (n : nat) : RefBundle :=
  {| blocks := seq 0 n; owns_blocks := true |}.

Definition caller_args : RayRemoteArgs := Some [("num_cpus"%string, PyInt 1)].

Definition upstream_args : RayRemoteArgs := Some [("num_gpus"%string, PyInt 1)].

Definition ctx_plain : TaskContext :=
  {| task_idx := 0; target_max_block_size := Bytes 134217728;
     upstream_map_transformer := None; upstream_map_ray_remote_args := None |}.

Definition ctx_fused : TaskContext :=
  {| task_idx := 0; target_max_block_size := Bytes 134217728;
     upstream_map_transformer := Some 1%nat;
     upstream_map_ray_remote_args := upstream_args |}.

Definition upstream_mt : MapTransformer :=
  {| transform_fns := 5; mt_target_max_block_size := Some (Bytes 134217728) |}.

Definition st_pull : State :=
  {| clock_ns := 1700000000123456789;
     data_context := {| shuffle_strategy := SORT_SHUFFLE_PULL_BASED |};
     transformers := {[ 1%nat := upstream_mt ]};
     ray_remote_args := None;
     trace := [] |}.

Definition st_push : State :=
  {| clock_ns := 1700000000123456789;
     data_context := {| shuffle_strategy := SORT_SHUFFLE_PUSH_BASED |};
     transformers := {[ 1%nat := upstream_mt ]};
     ray_remote_args := None;
     trace := [] |}.

Definition other_upstream_args : RayRemoteArgs := Some [("num_cpus"%string, PyInt 4)].

Definition ctx_fused_other : TaskContext :=
  {| task_idx := 1; target_max_block_size := Bytes 134217728;
     upstream_map_transformer := Some 1%nat;
     upstream_map_ray_remote_args := other_upstream_args |}.

(** ** Order of the calls in a trace *)

(** A trace (most recent call first) in which every construction of a
    scheduler is followed at once by a call of [execute] on that scheduler,
    with the kind and spec it was constructed with, and every call of
    [execute] comes right after the construction of its scheduler. *)
Inductive executed_at_once : list Event -> Prop :=
| at_once_nil : executed_at_once []
| at_once_execute k spec call rest :
    executed_at_once rest ->
    executed_at_once (EvExecute k spec call :: EvScheduler k spec :: rest)
| at_once_time t rest :
    executed_at_once rest -> executed_at_once (EvTimeNs t :: rest)
| at_once_override a size rest :
    executed_at_once rest -> executed_at_once (EvSetTargetMaxBlockSize a size :: rest)
| at_once_spec spec rest :
    executed_at_once rest -> executed_at_once (EvShuffleTaskSpec spec :: rest).

(** * Properties *)

Section Invocation.

Variable scheduler_execute : SchedulerExecute.

(** Unfolds the monadic code down to the call of [scheduler_execute]. *)
Ltac run_monad :=
  cbv beta iota zeta delta
    [fn execute new_ShuffleTaskSpec new_scheduler emit raise
     load_ray_remote_args store_ray_remote_args load_shuffle_strategy
     set_target_max_block_size mbind mret M_bind M_ret is_not_None
     built_spec built_call fusion_state scheduler_for is_push_based
     clock_ns data_context transformers ray_remote_args trace shuffle_strategy
     upstream_map_transformer target_max_block_size upstream_map_ray_remote_args
     fst snd].

Lemma fn_rejected seed num_outputs dbg refs ctx st :
  rejected st num_outputs = true ->
  fn scheduler_execute seed num_outputs dbg refs ctx st =
    (Raise (NotImplementedError push_based_msg),
     {| clock_ns := clock_ns st; data_context := data_context st;
        transformers := transformers (fusion_state ctx st);
        ray_remote_args := ray_remote_args (fusion_state ctx st);
        trace := EvShuffleTaskSpec (built_spec seed ctx) :: trace (fusion_state ctx st) |}).
Proof.
  destruct ctx as [i size [a|] up], st as [t [s] h cell tr], s, num_outputs;
    try discriminate; reflexivity.
Qed.

Lemma fn_executed seed num_outputs dbg refs ctx st :
  rejected st num_outputs = false ->
  let k := scheduler_for (shuffle_strategy (data_context st)) in
  let spec := built_spec seed ctx in
  let call := built_call num_outputs dbg refs ctx st in
  let out := scheduler_execute k spec call (transformers (fusion_state ctx st)) in
  fn scheduler_execute seed num_outputs dbg refs ctx st =
    (out.1,
     {| clock_ns := clock_ns st; data_context := data_context st;
        transformers := out.2;
        ray_remote_args := ray_remote_args (fusion_state ctx st);
        trace := EvExecute k spec call :: EvScheduler k spec
                 :: EvShuffleTaskSpec spec :: trace (fusion_state ctx st) |}).
Proof.
  destruct ctx as [i size [a|] up], st as [t [s] h cell tr], s, num_outputs;
    try discriminate; intros _; run_monad;
    match goal with |- context [scheduler_execute ?k ?s ?c ?h] =>
      destruct (scheduler_execute k s c h) end; reflexivity.
Qed.

Lemma fusion_state_trace ctx st :
  trace (fusion_state ctx st) =
    match upstream_map_transformer ctx with
    | Some a => [EvSetTargetMaxBlockSize a FloatInf]
    | None => []
    end ++ trace st.
Proof. unfold fusion_state. by destruct (upstream_map_transformer ctx). Qed.

Lemma fn_trace seed num_outputs dbg refs ctx st :
  trace (fn scheduler_execute seed num_outputs dbg refs ctx st).2 =
    fn_events seed num_outputs dbg refs ctx st ++ trace st.
Proof.
  unfold fn_events. destruct (rejected st num_outputs) eqn:Hr.
  - rewrite (fn_rejected _ _ _ _ _ _ Hr). cbn. by rewrite fusion_state_trace.
  - rewrite (fn_executed _ _ _ _ _ _ Hr). cbn. by rewrite fusion_state_trace.
Qed.

Lemma fn_cell seed num_outputs dbg refs ctx st :
  ray_remote_args (fn scheduler_execute seed num_outputs dbg refs ctx st).2 =
    ray_remote_args (fusion_state ctx st).
Proof.
  destruct (rejected st num_outputs) eqn:Hr.
  - by rewrite (fn_rejected _ _ _ _ _ _ Hr).
  - by rewrite (fn_executed _ _ _ _ _ _ Hr).
Qed.

(** An invocation leaves the [DataContext] as it was. *)
Lemma fn_data_context seed num_outputs dbg refs ctx st :
  data_context (fn scheduler_execute seed num_outputs dbg refs ctx st).2 = data_context st.
Proof.
  destruct (rejected st num_outputs) eqn:Hr.
  - by rewrite (fn_rejected _ _ _ _ _ _ Hr).
  - by rewrite (fn_executed _ _ _ _ _ _ Hr).
Qed.

Lemma run_cons f a rest st :
  run f (a :: rest) st =
    ((step f a st).1 :: (run f rest (step f a st).2).1, (run f rest (step f a st).2).2).
Proof. cbn. destruct (step f a st) as [r st1]. cbn. by destruct (run f rest st1). Qed.

Lemma step_invoke f refs ctx st :
  (step f (Invoke refs ctx) st).2 = (f refs ctx st).2.
Proof. cbn. by destruct (f refs ctx st). Qed.

Lemma run_trace seed num_outputs dbg acts st :
  trace (run (fn scheduler_execute seed num_outputs dbg) acts st).2 =
    run_events scheduler_execute seed num_outputs dbg acts st ++ trace st.
Proof.
  revert st. induction acts as [|a rest IH]; intros st; [done|].
  rewrite run_cons. cbn [snd run_events]. rewrite IH, <- app_assoc. f_equal.
  destruct a as [refs ctx|s|dt]; [|done..].
  rewrite step_invoke. apply fn_trace.
Qed.

Lemma fn_events_overrides seed num_outputs dbg refs ctx st :
  overrides (fn_events seed num_outputs dbg refs ctx st) =
    match upstream_map_transformer ctx with
    | Some a => [(a, FloatInf)]
    | None => []
    end.
Proof.
  unfold fn_events, overrides. rewrite omap_app.
  by destruct (rejected st num_outputs), (upstream_map_transformer ctx).
Qed.

Lemma fn_events_clock_reads seed num_outputs dbg refs ctx st :
  clock_reads (fn_events seed num_outputs dbg refs ctx st) = [].
Proof.
  unfold fn_events, clock_reads. rewrite omap_app.
  by destruct (rejected st num_outputs), (upstream_map_transformer ctx).
Qed.

Lemma fn_events_specs_built seed num_outputs dbg refs ctx st :
  specs_built (fn_events seed num_outputs dbg refs ctx st) = [built_spec seed ctx].
Proof.
  unfold fn_events, specs_built. rewrite omap_app.
  by destruct (rejected st num_outputs), (upstream_map_transformer ctx).
Qed.

Lemma fn_events_schedulers seed num_outputs dbg refs ctx st :
  schedulers (fn_events seed num_outputs dbg refs ctx st) =
    if rejected st num_outputs then []
    else [(scheduler_for (shuffle_strategy (data_context st)), built_spec seed ctx)].
Proof.
  unfold fn_events, schedulers. rewrite omap_app.
  by destruct (rejected st num_outputs), (upstream_map_transformer ctx).
Qed.

Lemma fn_events_executes seed num_outputs dbg refs ctx st :
  executes (fn_events seed num_outputs dbg refs ctx st) =
    if rejected st num_outputs then []
    else [(scheduler_for (shuffle_strategy (data_context st)), built_spec seed ctx,
           built_call num_outputs dbg refs ctx st)].
Proof.
  unfold fn_events, executes. rewrite omap_app.
  by destruct (rejected st num_outputs), (upstream_map_transformer ctx).
Qed.

Lemma run_events_overrides seed num_outputs dbg acts st :
  overrides (run_events scheduler_execute seed num_outputs dbg acts st) =
    rev (map (fun a => (a, FloatInf)) (fused_invocations acts)).
Proof.
  revert st. induction acts as [|a rest IH]; intros st; [done|].
  cbn [run_events]. unfold overrides in *. rewrite omap_app, IH.
  destruct a as [refs ctx|s|dt]; cbn; [|by rewrite app_nil_r..].
  fold (overrides (fn_events seed num_outputs dbg refs ctx st)).
  rewrite fn_events_overrides.
  destruct (upstream_map_transformer ctx); cbn; [done|by rewrite app_nil_r].
Qed.

Lemma run_events_clock_reads seed num_outputs dbg acts st :
  clock_reads (run_events scheduler_execute seed num_outputs dbg acts st) = [].
Proof.
  revert st. induction acts as [|a rest IH]; intros st; [done|].
  cbn [run_events]. unfold clock_reads in *. rewrite omap_app, IH.
  destruct a as [refs ctx|s|dt]; [|done..].
  apply fn_events_clock_reads.
Qed.

Lemma run_events_specs_built seed num_outputs dbg acts st :
  specs_built (run_events scheduler_execute seed num_outputs dbg acts st) =
    rev (map (fun p => built_spec seed p.2) (invocations acts)).
Proof.
  revert st. induction acts as [|a rest IH]; intros st; [done|].
  cbn [run_events]. unfold specs_built in *. rewrite omap_app, IH.
  destruct a as [refs ctx|s|dt]; cbn; [|by rewrite app_nil_r..].
  fold (specs_built (fn_events seed num_outputs dbg refs ctx st)).
  by rewrite fn_events_specs_built.
Qed.

Lemma run_events_schedulers_seed seed num_outputs dbg acts st :
  Forall (fun p => random_seed p.2 = seed)
    (schedulers (run_events scheduler_execute seed num_outputs dbg acts st)).
Proof.
  revert st. induction acts as [|a rest IH]; intros st; [by constructor|].
  cbn [run_events]. unfold schedulers in *. rewrite omap_app.
  apply Forall_app. split; [apply IH|].
  destruct a as [refs ctx|s|dt]; [|by constructor..].
  fold (schedulers (fn_events seed num_outputs dbg refs ctx st)).
  rewrite fn_events_schedulers.
  destruct (rejected st num_outputs); by repeat constructor.
Qed.

Lemma run_events_executes_seed seed num_outputs dbg acts st :
  Forall (fun p => random_seed p.1.2 = seed)
    (executes (run_events scheduler_execute seed num_outputs dbg acts st)).
Proof.
  revert st. induction acts as [|a rest IH]; intros st; [by constructor|].
  cbn [run_events]. unfold executes in *. rewrite omap_app.
  apply Forall_app. split; [apply IH|].
  destruct a as [refs ctx|s|dt]; [|by constructor..].
  fold (executes (fn_events seed num_outputs dbg refs ctx st)).
  rewrite fn_events_executes.
  destruct (rejected st num_outputs); by repeat constructor.
Qed.

Lemma run_events_executes_count seed num_outputs dbg acts st :
  (length (executes (run_events scheduler_execute seed num_outputs dbg acts st))
   <= length (invocations acts))%nat.
Proof.
  revert st. induction acts as [|a rest IH]; intros st; [done|].
  cbn [run_events]. unfold executes in *. rewrite omap_app, length_app.
  specialize (IH (step (fn scheduler_execute seed num_outputs dbg) a st).2).
  destruct a as [refs ctx|s|dt].
  - fold (executes (fn_events seed num_outputs dbg refs ctx st)).
    rewrite fn_events_executes.
    change (invocations (Invoke refs ctx :: rest)) with ((refs, ctx) :: invocations rest).
    destruct (rejected st num_outputs); cbn [length]; lia.
  - change (invocations (SetShuffleStrategy s :: rest)) with (invocations rest).
    cbn in *. lia.
  - change (invocations (Sleep dt :: rest)) with (invocations rest).
    cbn in *. lia.
Qed.

Lemma fusion_state_cell ctx st :
  ray_remote_args (fusion_state ctx st) =
    match upstream_map_transformer ctx with
    | Some _ => upstream_map_ray_remote_args ctx
    | None => ray_remote_args st
    end.
Proof. unfold fusion_state. by destruct (upstream_map_transformer ctx). Qed.

Lemma run_cell seed num_outputs dbg acts st :
  ray_remote_args (run (fn scheduler_execute seed num_outputs dbg) acts st).2 =
    rebound_args acts (ray_remote_args st).
Proof.
  revert st. induction acts as [|a rest IH]; intros st; [done|].
  rewrite run_cons. cbn [snd]. rewrite IH. cbn [rebound_args fold_left]. f_equal.
  destruct a as [refs ctx|s|dt]; [|done..].
  by rewrite step_invoke, fn_cell, fusion_state_cell.
Qed.

Lemma rebound_args_unfused acts cur :
  fused_invocations acts = [] -> rebound_args acts cur = cur.
Proof.
  revert cur. induction acts as [|a rest IH]; intros cur Hf; [done|].
  cbn in Hf |- *. destruct a as [refs ctx|s|dt]; [|by apply IH..].
  destruct (upstream_map_transformer ctx); [done|by apply IH].
Qed.

Lemma run_events_executes_unfused seed num_outputs dbg acts st :
  fused_invocations acts = [] ->
  Forall (fun p => map_ray_remote_args p.2 = ray_remote_args st
                   /\ reduce_ray_remote_args p.2 = ray_remote_args st)
    (executes (run_events scheduler_execute seed num_outputs dbg acts st)).
Proof.
  revert st. induction acts as [|a rest IH]; intros st Hf; [by constructor|].
  cbn [run_events]. unfold executes in *. rewrite omap_app.
  apply Forall_app. cbn in Hf. split.
  - destruct a as [refs ctx|s|dt].
    + destruct (upstream_map_transformer ctx) eqn:Hu; [done|].
      specialize (IH (step (fn scheduler_execute seed num_outputs dbg)
                        (Invoke refs ctx) st).2 Hf).
      rewrite step_invoke in IH |- *.
      rewrite fn_cell, fusion_state_cell, Hu in IH. exact IH.
    + exact (IH (step (fn scheduler_execute seed num_outputs dbg)
                   (SetShuffleStrategy s) st).2 Hf).
    + exact (IH (step (fn scheduler_execute seed num_outputs dbg) (Sleep dt) st).2 Hf).
  - destruct a as [refs ctx|s|dt]; [|by constructor..].
    destruct (upstream_map_transformer ctx) eqn:Hu; [done|].
    fold (executes (fn_events seed num_outputs dbg refs ctx st)).
    rewrite fn_events_executes.
    destruct (rejected st num_outputs); [by constructor|].
    repeat constructor; cbn; by rewrite fusion_state_cell, Hu.
Qed.

(** *** Arithmetic of the source expressions *)

Lemma py_sum_lengths (refs : list RefBundle) :
  py_sum (map (fun r => Z.of_nat (length (blocks r))) refs) =
    Z.of_nat (list_sum (map (fun r => length (blocks r)) refs)).
Proof.
  unfold py_sum.
  enough (H : forall acc,
             fold_left Z.add (map (fun r => Z.of_nat (length (blocks r))) refs) acc =
               acc + Z.of_nat (list_sum (map (fun r => length (blocks r)) refs)))
    by (rewrite H; apply Z.add_0_l).
  induction refs as [|r refs IH]; intros acc;
    cbn [map fold_left list_sum fold_right]; [lia|].
  rewrite IH. fold (list_sum (map (fun r => length (blocks r)) refs)). lia.
Qed.

Lemma rejected_None st : rejected st None = false.
Proof. unfold rejected. apply andb_false_r. Qed.

Lemma rejected_not_push st num_outputs :
  shuffle_strategy (data_context st) <> SORT_SHUFFLE_PUSH_BASED ->
  rejected st num_outputs = false.
Proof. unfold rejected. by destruct (shuffle_strategy (data_context st)). Qed.

Lemma rejected_push st n :
  shuffle_strategy (data_context st) = SORT_SHUFFLE_PUSH_BASED ->
  rejected st (Some n) = true.
Proof. unfold rejected. by intros ->. Qed.

Lemma fn_executes seed num_outputs dbg refs ctx st :
  executes (trace (fn scheduler_execute seed num_outputs dbg refs ctx st).2) =
    (if rejected st num_outputs then []
     else [(scheduler_for (shuffle_strategy (data_context st)), built_spec seed ctx,
            built_call num_outputs dbg refs ctx st)])
    ++ executes (trace st).
Proof.
  rewrite fn_trace. unfold executes at 1. rewrite omap_app.
  fold (executes (fn_events seed num_outputs dbg refs ctx st)) (executes (trace st)).
  by rewrite fn_events_executes.
Qed.

Lemma fn_schedulers seed num_outputs dbg refs ctx st :
  schedulers (trace (fn scheduler_execute seed num_outputs dbg refs ctx st).2) =
    (if rejected st num_outputs then []
     else [(scheduler_for (shuffle_strategy (data_context st)), built_spec seed ctx)])
    ++ schedulers (trace st).
Proof.
  rewrite fn_trace. unfold schedulers at 1. rewrite omap_app.
  fold (schedulers (fn_events seed num_outputs dbg refs ctx st)) (schedulers (trace st)).
  by rewrite fn_events_schedulers.
Qed.

(** An invocation without an upstream transformer hands [execute] the
    current binding of [ray_remote_args], whatever bound it. *)
Lemma unfused_invocation_passes_binding seed num_outputs dbg refs ctx st :
  upstream_map_transformer ctx = None ->
  rejected st num_outputs = false ->
  exists k spec call,
    executes (trace (fn scheduler_execute seed num_outputs dbg refs ctx st).2)
      = (k, spec, call) :: executes (trace st)
    /\ map_ray_remote_args call = ray_remote_args st
    /\ reduce_ray_remote_args call = ray_remote_args st.
Proof.
  intros Hu Hr. do 3 eexists. rewrite fn_executes, Hr. split; [reflexivity|].
  cbn. by rewrite fusion_state_cell, Hu.
Qed.

(** ** The claims *)

(** C1. Push-based rejection: when the configured strategy is push-based
    and [num_outputs] was supplied, an invocation raises
    [NotImplementedError] with the message of line 76, no scheduler is
    constructed and no [execute] is called. *)
Theorem push_based_rejects_num_outputs seed n dbg refs ctx st :
  shuffle_strategy (data_context st) = SORT_SHUFFLE_PUSH_BASED ->
  (fn scheduler_execute seed (Some n) dbg refs ctx st).1
    = Raise (NotImplementedError push_based_msg)
  /\ executes (trace (fn scheduler_execute seed (Some n) dbg refs ctx st).2)
     = executes (trace st)
  /\ schedulers (trace (fn scheduler_execute seed (Some n) dbg refs ctx st).2)
     = schedulers (trace st).
Proof.
  intros Hs. pose proof (rejected_push st n Hs) as Hr.
  rewrite fn_executes, fn_schedulers, Hr.
  by rewrite (fn_rejected _ _ _ _ _ _ Hr).
Qed.

(** C2. Default output count: with [num_outputs] omitted, an invocation
    makes one call of [execute], on the scheduler the strategy selects, and
    the output count it passes is the sum of [len(r.blocks)] over the input
    bundles; bundles of 2, 3 and 1 blocks give 6. *)
Theorem default_output_count seed dbg refs ctx st :
  (exists spec call,
     executes (trace (fn scheduler_execute seed None dbg refs ctx st).2)
       = (scheduler_for (shuffle_strategy (data_context st)), spec, call)
         :: executes (trace st)
     /\ output_num_blocks call
        = Z.of_nat (list_sum (map (fun r => length (blocks r)) refs)))
  /\ (exists spec call,
     executes (trace (fn scheduler_execute seed None dbg
                        [bundle 2; bundle 3; bundle 1] ctx st).2)
       = (scheduler_for (shuffle_strategy (data_context st)), spec, call)
         :: executes (trace st)
     /\ output_num_blocks call = 6).
Proof.
  split; do 2 eexists; rewrite fn_executes, rejected_None;
    (split; [reflexivity|]); cbn [built_call output_num_blocks py_or].
  - apply py_sum_lengths.
  - reflexivity.
Qed.

(** C3, as amended.  Under any strategy other than push-based, a supplied
    [num_outputs] different from 0 is the output count that [execute]
    receives, whatever the block counts of the input bundles. *)
Theorem explicit_output_count_honored seed n dbg refs ctx st :
  n <> 0 ->
  shuffle_strategy (data_context st) <> SORT_SHUFFLE_PUSH_BASED ->
  exists spec call,
    executes (trace (fn scheduler_execute seed (Some n) dbg refs ctx st).2)
      = (PullBasedShuffleTaskScheduler, spec, call) :: executes (trace st)
    /\ output_num_blocks call = n.
Proof.
  intros Hn Hs. do 2 eexists.
  rewrite fn_executes, (rejected_not_push _ _ Hs). split.
  - cbn [app]. do 3 f_equal. unfold scheduler_for.
    by destruct (shuffle_strategy (data_context st)).
  - cbn [built_call output_num_blocks py_or]. by destruct (Z.eqb_spec n 0).
Qed.

(** What every run of a transform with seed [seed] adds to the trace: no
    reading of the clock, and one task spec per invocation, each carrying
    [seed], as does every spec given to a scheduler or to [execute]. *)
Lemma run_seed seed num_outputs dbg acts st :
  exists evs,
    trace (run (fn scheduler_execute seed num_outputs dbg) acts st).2 = evs ++ trace st
    /\ clock_reads evs = []
    /\ length (specs_built evs) = length (invocations acts)
    /\ Forall (fun spec => random_seed spec = seed) (specs_built evs)
    /\ Forall (fun p => random_seed p.2 = seed) (schedulers evs)
    /\ Forall (fun p => random_seed p.1.2 = seed) (executes evs).
Proof.
  exists (run_events scheduler_execute seed num_outputs dbg acts st).
  split; [apply run_trace|]. split; [apply run_events_clock_reads|].
  rewrite run_events_specs_built, length_rev, length_map.
  split; [done|]. split; [|split].
  - apply Forall_rev, Forall_map, Forall_forall. by intros [refs ctx] _.
  - apply run_events_schedulers_seed.
  - apply run_events_executes_seed.
Qed.

(** C4. Derived seed: with [seed=None] the clock is read once, at
    construction; the seed is the reading modulo [INT32_MAX], so it lies in
    [0, INT32_MAX); the returned transform is [fn] closed over that seed,
    and along any later run, whatever time passes, no invocation reads the
    clock and each one builds its task spec with that seed. *)
Theorem derived_seed_fixed_at_construction num_outputs args dbg st :
  exists s st1,
    generate_random_shuffle_fn scheduler_execute None num_outputs args dbg st
      = (Ok (fn scheduler_execute s num_outputs dbg), st1)
    /\ s = clock_ns st `mod` INT32_MAX
    /\ 0 <= s < INT32_MAX
    /\ clock_reads (trace st1) = clock_ns st :: clock_reads (trace st)
    /\ forall acts, exists evs,
         trace (run (fn scheduler_execute s num_outputs dbg) acts st1).2
           = evs ++ trace st1
         /\ clock_reads evs = []
         /\ length (specs_built evs) = length (invocations acts)
         /\ Forall (fun spec => random_seed spec = s) (specs_built evs).
Proof.
  do 2 eexists. split; [reflexivity|]. split; [reflexivity|].
  split; [by apply Z.mod_pos_bound|]. split; [reflexivity|].
  intros acts.
  destruct (run_seed (clock_ns st `mod` INT32_MAX) num_outputs dbg acts
              (generate_random_shuffle_fn scheduler_execute None num_outputs args dbg st).2)
    as (evs & Ht & Hc & Hl & Hs & _).
  exists evs. auto.
Qed.

(** C5. Explicit seed: a supplied seed, 0 included, is kept as it is (the
    clock is not read).  Every invocation of the returned transform, from
    whatever state, builds one task spec with that seed as [random_seed],
    and unless the push-based strategy rejects a supplied [num_outputs] it
    constructs one scheduler with that very spec and calls [execute] on
    it.  Hence along any run every task spec that is built, given to a
    scheduler or present at a call of [execute] carries the seed. *)
Theorem explicit_seed_passed_unchanged s num_outputs args dbg st :
  exists st1,
    generate_random_shuffle_fn scheduler_execute (Some s) num_outputs args dbg st
      = (Ok (fn scheduler_execute s num_outputs dbg), st1)
    /\ clock_reads (trace st1) = clock_reads (trace st)
    /\ (forall refs ctx st',
          exists spec,
            random_seed spec = s
            /\ specs_built (trace (fn scheduler_execute s num_outputs dbg refs ctx st').2)
               = spec :: specs_built (trace st')
            /\ (shuffle_strategy (data_context st') <> SORT_SHUFFLE_PUSH_BASED
                \/ num_outputs = None ->
                exists k call,
                  schedulers (trace (fn scheduler_execute s num_outputs dbg refs ctx st').2)
                    = (k, spec) :: schedulers (trace st')
                  /\ executes (trace (fn scheduler_execute s num_outputs dbg refs ctx st').2)
                     = (k, spec, call) :: executes (trace st')))
    /\ forall acts, exists evs,
         trace (run (fn scheduler_execute s num_outputs dbg) acts st1).2
           = evs ++ trace st1
         /\ length (specs_built evs) = length (invocations acts)
         /\ Forall (fun spec => random_seed spec = s) (specs_built evs)
         /\ Forall (fun p => random_seed p.2 = s) (schedulers evs)
         /\ Forall (fun p => random_seed p.1.2 = s) (executes evs).
Proof.
  eexists. split; [reflexivity|]. split; [reflexivity|]. split.
  - intros refs ctx st'. exists (built_spec s ctx). split; [reflexivity|]. split.
    + rewrite fn_trace. unfold specs_built at 1. rewrite omap_app.
      fold (specs_built (fn_events s num_outputs dbg refs ctx st')).
      by rewrite fn_events_specs_built.
    + intros Hok.
      assert (Hr : rejected st' num_outputs = false).
      { destruct Hok as [Hs| ->]; [by apply rejected_not_push|apply rejected_None]. }
      do 2 eexists. rewrite fn_schedulers, fn_executes, Hr. split; reflexivity.
  - intros acts.
    destruct (run_seed s num_outputs dbg acts
                (generate_random_shuffle_fn scheduler_execute (Some s) num_outputs args dbg
                   st).2)
      as (evs & Ht & _ & Hl & Hs & Hk & He).
    exists evs. auto.
Qed.

(** C6. Fusion: when the context carries an upstream transformer, every
    call of [execute] the invocation makes receives
    [ctx.upstream_map_ray_remote_args] both as [map_ray_remote_args] and as
    [reduce_ray_remote_args], whatever [ray_remote_args] was bound to; and
    it makes exactly one such call unless the push-based strategy rejects
    a supplied [num_outputs]. *)
Theorem fused_invocation_uses_upstream_args seed num_outputs dbg refs ctx a st :
  upstream_map_transformer ctx = Some a ->
  exists evs,
    trace (fn scheduler_execute seed num_outputs dbg refs ctx st).2 = evs ++ trace st
    /\ Forall (fun p => map_ray_remote_args p.2 = upstream_map_ray_remote_args ctx
                        /\ reduce_ray_remote_args p.2 = upstream_map_ray_remote_args ctx)
         (executes evs)
    /\ (shuffle_strategy (data_context st) <> SORT_SHUFFLE_PUSH_BASED
        \/ num_outputs = None ->
        length (executes evs) = 1%nat).
Proof.
  intros Hu. exists (fn_events seed num_outputs dbg refs ctx st).
  split; [apply fn_trace|]. rewrite fn_events_executes. split.
  - destruct (rejected st num_outputs); [by constructor|].
    repeat constructor; cbn; by rewrite fusion_state_cell, Hu.
  - intros [Hs| ->].
    + by rewrite (rejected_not_push _ _ Hs).
    + by rewrite rejected_None.
Qed.

(** C8, as amended.  Construction performs no override.  Each invocation
    whose context carries an upstream transformer performs one, setting
    that transformer's limit to infinity; so a run performs as many
    overrides as it has such invocations, in their order. *)
Theorem override_once_per_fused_invocation seed0 seed num_outputs args dbg acts st :
  overrides (trace (generate_random_shuffle_fn scheduler_execute seed0 num_outputs
                      args dbg st).2)
    = overrides (trace st)
  /\ overrides (trace (run (fn scheduler_execute seed num_outputs dbg) acts st).2)
     = rev (map (fun a => (a, FloatInf)) (fused_invocations acts))
       ++ overrides (trace st).
Proof.
  split; [by destruct seed0|].
  rewrite run_trace. unfold overrides at 1. rewrite omap_app.
  fold (overrides (run_events scheduler_execute seed num_outputs dbg acts st)).
  by rewrite run_events_overrides.
Qed.

(** C9, as amended.  Rebinding: an invocation whose context carries an
    upstream transformer leaves [ray_remote_args] bound to that context's
    [upstream_map_ray_remote_args], whether it returns or raises.  The
    binding outlives the call, until a later invocation that carries a
    transformer rebinds it: after any further run it is the upstream
    arguments of the latest such invocation; and as long as no later
    invocation carries a transformer, it stays that of this invocation and
    every later call of [execute] receives it. *)
Theorem rebinding_persists seed num_outputs dbg refs ctx a st :
  upstream_map_transformer ctx = Some a ->
  ray_remote_args (fn scheduler_execute seed num_outputs dbg refs ctx st).2
    = upstream_map_ray_remote_args ctx
  /\ (forall acts,
        ray_remote_args
          (run (fn scheduler_execute seed num_outputs dbg) acts
             (fn scheduler_execute seed num_outputs dbg refs ctx st).2).2
        = rebound_args acts (upstream_map_ray_remote_args ctx))
  /\ (forall acts,
        fused_invocations acts = [] ->
        ray_remote_args
          (run (fn scheduler_execute seed num_outputs dbg) acts
             (fn scheduler_execute seed num_outputs dbg refs ctx st).2).2
        = upstream_map_ray_remote_args ctx
        /\ exists evs,
            trace (run (fn scheduler_execute seed num_outputs dbg) acts
                     (fn scheduler_execute seed num_outputs dbg refs ctx st).2).2
            = evs ++ trace (fn scheduler_execute seed num_outputs dbg refs ctx st).2
            /\ (length (executes evs) <= length (invocations acts))%nat
            /\ Forall (fun p =>
                         map_ray_remote_args p.2 = upstream_map_ray_remote_args ctx
                         /\ reduce_ray_remote_args p.2 = upstream_map_ray_remote_args ctx)
                 (executes evs)).
Proof.
  intros Hu.
  assert (Hc : ray_remote_args (fn scheduler_execute seed num_outputs dbg refs ctx st).2
               = upstream_map_ray_remote_args ctx)
    by (by rewrite fn_cell, fusion_state_cell, Hu).
  split; [exact Hc|]. split.
  - intros acts. by rewrite run_cell, Hc.
  - intros acts Hf. rewrite run_cell, Hc. split; [by apply rebound_args_unfused|].
    eexists. split; [apply run_trace|]. split.
    + apply run_events_executes_count.
    + rewrite <- Hc. by apply run_events_executes_unfused.
Qed.

(** C10. The rejection is not atomic: when the strategy is push-based,
    [num_outputs] is supplied and the context carries a live upstream
    transformer, the invocation raises [NotImplementedError] after it has
    set that transformer's limit to infinity and rebound [ray_remote_args]
    to the upstream arguments; both effects are in the state it leaves. *)
Theorem rejection_keeps_fusion_effects seed n dbg refs ctx a mt st :
  shuffle_strategy (data_context st) = SORT_SHUFFLE_PUSH_BASED ->
  upstream_map_transformer ctx = Some a ->
  transformers st !! a = Some mt ->
  (fn scheduler_execute seed (Some n) dbg refs ctx st).1
    = Raise (NotImplementedError push_based_msg)
  /\ transformers (fn scheduler_execute seed (Some n) dbg refs ctx st).2 !! a
     = Some {| transform_fns := transform_fns mt;
               mt_target_max_block_size := Some FloatInf |}
  /\ ray_remote_args (fn scheduler_execute seed (Some n) dbg refs ctx st).2
     = upstream_map_ray_remote_args ctx
  /\ overrides (trace (fn scheduler_execute seed (Some n) dbg refs ctx st).2)
     = (a, FloatInf) :: overrides (trace st).
Proof.
  intros Hs Hu Hm. pose proof (rejected_push st n Hs) as Hr.
  rewrite (fn_rejected _ _ _ _ _ _ Hr). cbn [fst snd transformers ray_remote_args trace].
  rewrite fusion_state_cell, fusion_state_trace, Hu. unfold fusion_state. rewrite Hu.
  cbn [transformers]. rewrite lookup_alter_eq, Hm. done.
Qed.

End Invocation.

(** ** The claims on concrete inputs *)

Lemma push_based_rejects_num_outputs_witness :
  shuffle_strategy (data_context st_push) = SORT_SHUFFLE_PUSH_BASED
  /\ (fn echo_execute 7 (Some 10) None [bundle 2; bundle 3] ctx_fused st_push).1
     = Raise (NotImplementedError push_based_msg)
  /\ executes (trace (fn echo_execute 7 (Some 10) None [bundle 2; bundle 3]
                        ctx_fused st_push).2)
     = executes (trace st_push)
  /\ schedulers (trace (fn echo_execute 7 (Some 10) None [bundle 2; bundle 3]
                          ctx_fused st_push).2)
     = schedulers (trace st_push).
Proof.
  split; [reflexivity|].
  apply (push_based_rejects_num_outputs echo_execute 7 10 None
           [bundle 2; bundle 3] ctx_fused st_push).
  reflexivity.
Defined.

(** C3, as stated, fails at [num_outputs = 0]: under the pull-based
    strategy, with bundles of 2, 3 and 1 blocks, [execute] receives 6. *)
Lemma zero_num_outputs_not_honored :
  shuffle_strategy (data_context st_pull) <> SORT_SHUFFLE_PUSH_BASED
  /\ exists spec call,
       executes (trace (fn echo_execute 7 (Some 0) None
                          [bundle 2; bundle 3; bundle 1] ctx_plain st_pull).2)
         = [(PullBasedShuffleTaskScheduler, spec, call)]
       /\ output_num_blocks call = 6
       /\ output_num_blocks call <> 0.
Proof.
  split; [discriminate|]. do 2 eexists.
  split; [reflexivity|]. split; [reflexivity|discriminate].
Qed.

Lemma explicit_output_count_honored_witness :
  10 <> 0
  /\ shuffle_strategy (data_context st_pull) <> SORT_SHUFFLE_PUSH_BASED
  /\ exists spec call,
       executes (trace (fn echo_execute 7 (Some 10) None
                          [bundle 2; bundle 3; bundle 1] ctx_plain st_pull).2)
         = (PullBasedShuffleTaskScheduler, spec, call) :: executes (trace st_pull)
       /\ output_num_blocks call = 10.
Proof.
  split; [lia|]. split; [discriminate|].
  apply (explicit_output_count_honored echo_execute 7 10 None
           [bundle 2; bundle 3; bundle 1] ctx_plain st_pull); [lia|discriminate].
Defined.

Lemma fused_invocation_uses_upstream_args_witness :
  upstream_map_transformer ctx_fused = Some 1%nat
  /\ exists evs,
       trace (fn echo_execute 7 None None [bundle 2] ctx_fused st_pull).2
         = evs ++ trace st_pull
       /\ Forall (fun p => map_ray_remote_args p.2 = upstream_map_ray_remote_args ctx_fused
                           /\ reduce_ray_remote_args p.2
                              = upstream_map_ray_remote_args ctx_fused)
            (executes evs)
       /\ (shuffle_strategy (data_context st_pull) <> SORT_SHUFFLE_PUSH_BASED
           \/ @None Z = None ->
           length (executes evs) = 1%nat).
Proof.
  split; [reflexivity|].
  apply (fused_invocation_uses_upstream_args echo_execute 7 None None [bundle 2]
           ctx_fused 1%nat st_pull).
  reflexivity.
Defined.

(** C7 at the failing input: a transform built with [caller_args] is
    invoked with an upstream transformer attached and then without one; the
    second invocation hands [execute] the upstream arguments of the first,
    not [caller_args]. *)
Theorem unfused_invocation_after_fused_one :
  exists f st1,
    generate_random_shuffle_fn echo_execute (Some 7) None caller_args None st_pull
      = (Ok f, st1)
    /\ exists k spec call,
         head (executes (trace (run f [Invoke [bundle 2] ctx_fused;
                                       Invoke [bundle 2] ctx_plain] st1).2))
           = Some (k, spec, call)
         /\ upstream_map_transformer (task_ctx call) = None
         /\ map_ray_remote_args call = upstream_args
         /\ reduce_ray_remote_args call = upstream_args
         /\ map_ray_remote_args call <> caller_args.
Proof.
  do 2 eexists. split; [reflexivity|]. do 3 eexists.
  split; [reflexivity|]. repeat split; discriminate.
Qed.

(** C8, as stated, fails: one transform invoked twice with the same
    upstream transformer attached overrides its limit twice. *)
Lemma override_repeated_on_each_invocation :
  exists f st1,
    generate_random_shuffle_fn echo_execute (Some 7) None caller_args None st_pull
      = (Ok f, st1)
    /\ overrides (trace st1) = []
    /\ overrides (trace (run f [Invoke [bundle 2] ctx_fused;
                                Invoke [bundle 2] ctx_fused] st1).2)
       = [(1%nat, FloatInf); (1%nat, FloatInf)].
Proof.
  do 2 eexists. split; [reflexivity|]. split; reflexivity.
Qed.

(** C9, as stated, fails: the arguments bound by one invocation do not
    persist into all later invocations.  After an invocation with
    [upstream_args] attached, a second one with [other_upstream_args]
    attached rebinds the variable, and a third one, with no transformer,
    hands [execute] the arguments of the second. *)
Lemma later_fusion_replaces_the_binding :
  upstream_map_transformer ctx_fused = Some 1%nat
  /\ ray_remote_args (fn echo_execute 7 None None [bundle 2] ctx_fused st_pull).2
     = upstream_map_ray_remote_args ctx_fused
  /\ ray_remote_args
       (run (fn echo_execute 7 None None)
          [Invoke [bundle 2] ctx_fused_other; Invoke [bundle 2] ctx_plain]
          (fn echo_execute 7 None None [bundle 2] ctx_fused st_pull).2).2
     <> upstream_map_ray_remote_args ctx_fused
  /\ exists k spec call,
       head (executes
               (trace (run (fn echo_execute 7 None None)
                         [Invoke [bundle 2] ctx_fused_other; Invoke [bundle 2] ctx_plain]
                         (fn echo_execute 7 None None [bundle 2] ctx_fused st_pull).2).2))
         = Some (k, spec, call)
       /\ upstream_map_transformer (task_ctx call) = None
       /\ map_ray_remote_args call = other_upstream_args
       /\ map_ray_remote_args call <> upstream_map_ray_remote_args ctx_fused.
Proof.
  split; [reflexivity|]. split; [reflexivity|]. split; [discriminate|].
  do 3 eexists. split; [reflexivity|]. repeat split; discriminate.
Qed.

Lemma rebinding_persists_witness :
  upstream_map_transformer ctx_fused = Some 1%nat
  /\ ray_remote_args (fn echo_execute 7 None None [bundle 2] ctx_fused st_pull).2
     = upstream_args
  /\ fused_invocations [Invoke [bundle 3] ctx_plain; Sleep 5; Invoke [bundle 1] ctx_plain]
     = []
  /\ ray_remote_args
       (run (fn echo_execute 7 None None)
          [Invoke [bundle 3] ctx_plain; Sleep 5; Invoke [bundle 1] ctx_plain]
          (fn echo_execute 7 None None [bundle 2] ctx_fused st_pull).2).2
     = upstream_args.
Proof.
  split; [reflexivity|].
  destruct (rebinding_persists echo_execute 7 None None [bundle 2] ctx_fused 1%nat
              st_pull eq_refl) as (Hcell & _ & Hlater).
  split; [exact Hcell|]. split; [reflexivity|].
  exact (proj1 (Hlater [Invoke [bundle 3] ctx_plain; Sleep 5; Invoke [bundle 1] ctx_plain]
                  eq_refl)).
Defined.

Lemma rejection_keeps_fusion_effects_witness :
  shuffle_strategy (data_context st_push) = SORT_SHUFFLE_PUSH_BASED
  /\ upstream_map_transformer ctx_fused = Some 1%nat
  /\ transformers st_push !! 1%nat = Some upstream_mt
  /\ (fn echo_execute 7 (Some 10) None [bundle 2] ctx_fused st_push).1
     = Raise (NotImplementedError push_based_msg)
  /\ transformers (fn echo_execute 7 (Some 10) None [bundle 2] ctx_fused st_push).2
       !! 1%nat
     = Some {| transform_fns := transform_fns upstream_mt;
               mt_target_max_block_size := Some FloatInf |}
  /\ ray_remote_args (fn echo_execute 7 (Some 10) None [bundle 2] ctx_fused st_push).2
     = upstream_map_ray_remote_args ctx_fused
  /\ overrides (trace (fn echo_execute 7 (Some 10) None [bundle 2] ctx_fused st_push).2)
     = (1%nat, FloatInf) :: overrides (trace st_push).
Proof.
  split; [reflexivity|]. split; [reflexivity|]. split; [reflexivity|].
  apply (rejection_keeps_fusion_effects echo_execute 7 10 None [bundle 2] ctx_fused
           1%nat upstream_mt st_push); reflexivity.
Defined.

(** * Further properties of [fn] and [generate_random_shuffle_fn] *)

Section Further.

Variable scheduler_execute : SchedulerExecute.

Lemma rejected_true st num_outputs :
  rejected st num_outputs = true <->
  shuffle_strategy (data_context st) = SORT_SHUFFLE_PUSH_BASED /\ num_outputs <> None.
Proof.
  unfold rejected.
  destruct (shuffle_strategy (data_context st)), num_outputs; cbn;
    split; try discriminate; try done; intros [? ?]; done.
Qed.

Lemma rejected_false st num_outputs :
  rejected st num_outputs = false <->
  shuffle_strategy (data_context st) <> SORT_SHUFFLE_PUSH_BASED \/ num_outputs = None.
Proof.
  unfold rejected.
  destruct (shuffle_strategy (data_context st)), num_outputs; cbn;
    split; try done; try (intros _; by (left + right));
    intros [?|?]; done.
Qed.

Lemma scheduler_for_push s :
  scheduler_for s = PushBasedShuffleTaskScheduler <-> s = SORT_SHUFFLE_PUSH_BASED.
Proof. unfold scheduler_for. by destruct s. Qed.

(** Whatever holds of the call of every invocation that is not rejected
    holds of every call of [execute] that a run makes. *)
Lemma run_events_executes_Forall
    (P : SchedulerKind * ShuffleTaskSpec * ExecuteCall -> Prop)
    seed num_outputs dbg acts st :
  (forall refs ctx st0,
     rejected st0 num_outputs = false ->
     P (scheduler_for (shuffle_strategy (data_context st0)), built_spec seed ctx,
        built_call num_outputs dbg refs ctx st0)) ->
  Forall P (executes (run_events scheduler_execute seed num_outputs dbg acts st)).
Proof.
  intros HP. revert st. induction acts as [|a rest IH]; intros st; [by constructor|].
  cbn [run_events]. unfold executes in *. rewrite omap_app.
  apply Forall_app. split; [apply IH|].
  destruct a as [refs ctx|s|dt]; [|by constructor..].
  fold (executes (fn_events seed num_outputs dbg refs ctx st)).
  rewrite fn_events_executes.
  destruct (rejected st num_outputs) eqn:Hr; [by constructor|].
  repeat constructor. by apply HP.
Qed.

(** X1. The outcome of an invocation: either the strategy is push-based
    and [num_outputs] is set, and it raises [NotImplementedError]; or it
    makes one call of [execute], on the store left by the fusion step, and
    its result, value or exception, is the result of that call and its
    store the one that call leaves.  [fn] raises nothing else of its own
    and catches nothing. *)
Theorem outcome_is_rejection_or_scheduler_result seed num_outputs dbg refs ctx st :
  (shuffle_strategy (data_context st) = SORT_SHUFFLE_PUSH_BASED
   /\ num_outputs <> None
   /\ (fn scheduler_execute seed num_outputs dbg refs ctx st).1
      = Raise (NotImplementedError push_based_msg))
  \/ ((shuffle_strategy (data_context st) <> SORT_SHUFFLE_PUSH_BASED \/ num_outputs = None)
      /\ exists k spec call,
           executes (trace (fn scheduler_execute seed num_outputs dbg refs ctx st).2)
             = (k, spec, call) :: executes (trace st)
           /\ (fn scheduler_execute seed num_outputs dbg refs ctx st).1
              = (scheduler_execute k spec call (transformers (fusion_state ctx st))).1
           /\ transformers (fn scheduler_execute seed num_outputs dbg refs ctx st).2
              = (scheduler_execute k spec call (transformers (fusion_state ctx st))).2).
Proof.
  destruct (rejected st num_outputs) eqn:Hr.
  - left. apply rejected_true in Hr as Hr'. destruct Hr' as [Hs Hn].
    split; [done|]. split; [done|]. by rewrite (fn_rejected _ _ _ _ _ _ _ Hr).
  - right. split; [by apply rejected_false|]. do 3 eexists.
    rewrite fn_executes, Hr. split; [reflexivity|].
    by rewrite (fn_executed _ _ _ _ _ _ _ Hr).
Qed.

(** X2. The strategy is read when the transform is invoked, not when it
    is built: after the configured strategy is changed to [s], the next
    invocation constructs one scheduler, push-based exactly when [s] is
    [SORT_SHUFFLE_PUSH_BASED], hands it the task spec it has just built,
    and calls [execute] on that same scheduler. *)
Theorem scheduler_follows_current_strategy seed num_outputs dbg refs ctx s st :
  s <> SORT_SHUFFLE_PUSH_BASED \/ num_outputs = None ->
  exists k spec call,
    specs_built (trace (run (fn scheduler_execute seed num_outputs dbg)
                          [SetShuffleStrategy s; Invoke refs ctx] st).2)
      = spec :: specs_built (trace st)
    /\ schedulers (trace (run (fn scheduler_execute seed num_outputs dbg)
                           [SetShuffleStrategy s; Invoke refs ctx] st).2)
       = (k, spec) :: schedulers (trace st)
    /\ executes (trace (run (fn scheduler_execute seed num_outputs dbg)
                         [SetShuffleStrategy s; Invoke refs ctx] st).2)
       = (k, spec, call) :: executes (trace st)
    /\ (k = PushBasedShuffleTaskScheduler <-> s = SORT_SHUFFLE_PUSH_BASED).
Proof.
  intros Hs. rewrite !run_cons. cbn [snd run]. rewrite step_invoke.
  set (st1 := (step (fn scheduler_execute seed num_outputs dbg)
                 (SetShuffleStrategy s) st).2).
  assert (Hr : rejected st1 num_outputs = false) by (by apply rejected_false).
  exists (scheduler_for s), (built_spec seed ctx),
    (built_call num_outputs dbg refs ctx st1).
  rewrite fn_executes, fn_schedulers, Hr, fn_trace.
  unfold specs_built at 1. rewrite omap_app.
  fold (specs_built (fn_events seed num_outputs dbg refs ctx st1)).
  rewrite fn_events_specs_built.
  repeat split; try reflexivity; apply scheduler_for_push.
Qed.

Lemma step_invoke_result f refs ctx st :
  (step f (Invoke refs ctx) st).1 = Some (f refs ctx st).1.
Proof. cbn. by destruct (f refs ctx st). Qed.

(** Under the push-based strategy, and as long as the strategy is not
    changed to another one, every invocation of a transform built with
    [num_outputs] set raises, and no scheduler is constructed or
    executed. *)
Lemma run_rejected seed n dbg acts st :
  shuffle_strategy (data_context st) = SORT_SHUFFLE_PUSH_BASED ->
  Forall (fun a => match a with
                   | SetShuffleStrategy s => s = SORT_SHUFFLE_PUSH_BASED
                   | _ => True
                   end) acts ->
  (run (fn scheduler_execute seed (Some n) dbg) acts st).1
  = map (fun a => match a with
                  | Invoke _ _ => Some (Raise (NotImplementedError push_based_msg))
                  | _ => None
                  end) acts
  /\ schedulers (trace (run (fn scheduler_execute seed (Some n) dbg) acts st).2)
     = schedulers (trace st)
  /\ executes (trace (run (fn scheduler_execute seed (Some n) dbg) acts st).2)
     = executes (trace st).
Proof.
  revert st. induction acts as [|a rest IH]; intros st Hs Hacts; [done|].
  apply Forall_cons in Hacts as [Ha Hrest]. rewrite run_cons. cbn [fst snd map].
  destruct a as [refs ctx|s|dt].
  - pose proof (rejected_push st n Hs) as Hr.
    assert (Hs1 : shuffle_strategy
                    (data_context
                       (step (fn scheduler_execute seed (Some n) dbg) (Invoke refs ctx) st).2)
                  = SORT_SHUFFLE_PUSH_BASED)
      by (by rewrite step_invoke, fn_data_context).
    destruct (IH _ Hs1 Hrest) as (H1 & H2 & H3).
    rewrite H1, H2, H3, step_invoke_result, step_invoke, fn_schedulers, fn_executes, Hr.
    by rewrite (fn_rejected _ _ _ _ _ _ _ Hr).
  - subst s. destruct (IH (step (fn scheduler_execute seed (Some n) dbg)
                             (SetShuffleStrategy SORT_SHUFFLE_PUSH_BASED) st).2
                         eq_refl Hrest) as (H1 & H2 & H3).
    by rewrite H1, H2, H3.
  - destruct (IH (step (fn scheduler_execute seed (Some n) dbg) (Sleep dt) st).2
                Hs Hrest) as (H1 & H2 & H3).
    by rewrite H1, H2, H3.
Qed.

(** X3. The unsupported configuration is not detected at construction:
    under the push-based strategy [generate_random_shuffle_fn] with
    [num_outputs] set returns a transform, without building a task spec or
    a scheduler and without touching the transformers.  It is the
    invocations that raise: along any run in which the strategy is not
    changed to another one, every invocation of that transform raises
    [NotImplementedError], and no scheduler is constructed or executed. *)
Theorem rejection_waits_for_invocation seed0 n args dbg acts st :
  shuffle_strategy (data_context st) = SORT_SHUFFLE_PUSH_BASED ->
  Forall (fun a => match a with
                   | SetShuffleStrategy s => s = SORT_SHUFFLE_PUSH_BASED
                   | _ => True
                   end) acts ->
  exists f st1,
    generate_random_shuffle_fn scheduler_execute seed0 (Some n) args dbg st = (Ok f, st1)
    /\ specs_built (trace st1) = specs_built (trace st)
    /\ schedulers (trace st1) = schedulers (trace st)
    /\ transformers st1 = transformers st
    /\ (forall refs ctx,
          (f refs ctx st1).1 = Raise (NotImplementedError push_based_msg))
    /\ (run f acts st1).1
       = map (fun a => match a with
                       | Invoke _ _ => Some (Raise (NotImplementedError push_based_msg))
                       | _ => None
                       end) acts
    /\ schedulers (trace (run f acts st1).2) = schedulers (trace st)
    /\ executes (trace (run f acts st1).2) = executes (trace st).
Proof.
  intros Hs Hacts. destruct seed0 as [s|]; do 2 eexists;
    (split; [reflexivity|]); (split; [reflexivity|]); (split; [reflexivity|]);
    (split; [reflexivity|]);
    (split; [intros refs ctx; by rewrite fn_rejected by (by apply rejected_true)|]).
  all: match goal with
       | |- (run (fn _ ?s0 _ _) _ ?st1).1 = _ /\ _ =>
           destruct (run_rejected s0 n dbg acts st1 Hs Hacts) as (H1 & H2 & H3)
       end.
  all: rewrite H1, H2, H3; repeat split; reflexivity.
Qed.

(** X4. A supplied [num_outputs] of 0 counts as omitted for the output
    count: under a strategy other than push-based, [execute] receives the
    number of input blocks. *)
Theorem zero_num_outputs_falls_back seed dbg refs ctx st :
  shuffle_strategy (data_context st) <> SORT_SHUFFLE_PUSH_BASED ->
  exists spec call,
    executes (trace (fn scheduler_execute seed (Some 0) dbg refs ctx st).2)
      = (PullBasedShuffleTaskScheduler, spec, call) :: executes (trace st)
    /\ output_num_blocks call
       = Z.of_nat (list_sum (map (fun r => length (blocks r)) refs)).
Proof.
  intros Hs. do 2 eexists. rewrite fn_executes, (rejected_not_push _ _ Hs). split.
  - cbn [app]. do 3 f_equal. unfold scheduler_for.
    by destruct (shuffle_strategy (data_context st)).
  - cbn [built_call output_num_blocks py_or Z.eqb]. apply py_sum_lengths.
Qed.

Lemma list_sum_zero (xs : list nat) :
  list_sum xs = 0%nat <-> Forall (fun x => x = 0%nat) xs.
Proof.
  induction xs as [|x xs IH]; cbn [list_sum fold_right]; [by split; constructor|].
  fold (list_sum xs). rewrite Forall_cons, <- IH. lia.
Qed.

(** X5. With [num_outputs] omitted the output count is never negative,
    and it is 0 exactly when no input bundle holds a block, so in
    particular for an empty list of bundles: the call of [execute] is made
    all the same. *)
Theorem default_output_count_zero_iff_no_blocks seed dbg refs ctx st :
  exists k spec call,
    executes (trace (fn scheduler_execute seed None dbg refs ctx st).2)
      = (k, spec, call) :: executes (trace st)
    /\ 0 <= output_num_blocks call
    /\ (output_num_blocks call = 0 <-> Forall (fun r => blocks r = []) refs).
Proof.
  do 3 eexists. rewrite fn_executes, rejected_None. split; [reflexivity|].
  cbn [built_call output_num_blocks py_or]. rewrite py_sum_lengths.
  split; [lia|].
  change (Z.of_nat ?x = 0) with (Z.of_nat x = Z.of_nat 0).
  rewrite Nat2Z.inj_iff, list_sum_zero, Forall_map.
  apply Forall_iff. intros r. split.
  - by intros ?%nil_length_inv.
  - by intros ->.
Qed.

(** X6. The push-based scheduler is never handed an output count chosen
    by the caller: along any run, every call of [execute] on a push-based
    scheduler receives the number of blocks of the bundles it is given. *)
Theorem push_based_gets_input_block_count seed num_outputs dbg acts st :
  exists evs,
    trace (run (fn scheduler_execute seed num_outputs dbg) acts st).2 = evs ++ trace st
    /\ Forall (fun p =>
                p.1.1 = PushBasedShuffleTaskScheduler ->
                output_num_blocks p.2
                = Z.of_nat (list_sum (map (fun r => length (blocks r)) (ex_refs p.2))))
         (executes evs).
Proof.
  eexists. split; [apply run_trace|].
  apply run_events_executes_Forall. intros refs ctx st0 Hr Hk. cbn in Hk |- *.
  apply scheduler_for_push in Hk. apply rejected_false in Hr as [Hr| ->]; [done|].
  apply py_sum_lengths.
Qed.


(** X8. Along any run, every call of [execute] receives one and the same
    value as [map_ray_remote_args] and as [reduce_ray_remote_args], and
    when the context of the call carries a transformer that value is the
    context's own [upstream_map_ray_remote_args]. *)
Theorem execute_args_along_a_run seed num_outputs dbg acts st :
  exists evs,
    trace (run (fn scheduler_execute seed num_outputs dbg) acts st).2 = evs ++ trace st
    /\ Forall (fun p =>
                map_ray_remote_args p.2 = reduce_ray_remote_args p.2
                /\ (upstream_map_transformer (task_ctx p.2) <> None ->
                    map_ray_remote_args p.2 = upstream_map_ray_remote_args (task_ctx p.2)))
         (executes evs).
Proof.
  eexists. split; [apply run_trace|].
  apply run_events_executes_Forall. intros refs ctx st0 _. cbn.
  split; [done|]. rewrite fusion_state_cell.
  by destruct (upstream_map_transformer ctx).
Qed.

(** X9. No-fusion passthrough, as far as it holds: from construction on,
    as long as no invocation has carried an upstream transformer, every
    call of [execute] receives the [ray_remote_args] given to
    [generate_random_shuffle_fn] for both phases. *)
Theorem caller_args_until_first_fusion seed0 num_outputs args dbg acts st :
  fused_invocations acts = [] ->
  exists f st1,
    generate_random_shuffle_fn scheduler_execute seed0 num_outputs args dbg st = (Ok f, st1)
    /\ ray_remote_args (run f acts st1).2 = args
    /\ exists evs,
         trace (run f acts st1).2 = evs ++ trace st1
         /\ Forall (fun p => map_ray_remote_args p.2 = args
                             /\ reduce_ray_remote_args p.2 = args)
              (executes evs).
Proof.
  intros Hf. destruct seed0 as [s|]; do 2 eexists; (split; [reflexivity|]).
  all: split; [rewrite run_cell; by apply rebound_args_unfused|].
  all: eexists; split; [apply run_trace|].
  all: match goal with
       | |- Forall _ (executes (run_events _ ?s0 ?n ?d ?a ?st0)) =>
           exact (run_events_executes_unfused scheduler_execute s0 n d a st0 Hf)
       end.
Qed.

Lemma run_events_schedulers_executes seed num_outputs dbg acts st :
  schedulers (run_events scheduler_execute seed num_outputs dbg acts st)
  = map fst (executes (run_events scheduler_execute seed num_outputs dbg acts st)).
Proof.
  revert st. induction acts as [|a rest IH]; intros st; [done|].
  cbn [run_events]. unfold schedulers, executes in *.
  rewrite !omap_app, map_app, IH. f_equal.
  destruct a as [refs ctx|s|dt]; [|done..].
  fold (schedulers (fn_events seed num_outputs dbg refs ctx st)).
  fold (executes (fn_events seed num_outputs dbg refs ctx st)).
  rewrite fn_events_schedulers, fn_events_executes.
  by destruct (rejected st num_outputs).
Qed.

Lemma run_events_executes_default seed dbg acts st :
  length (executes (run_events scheduler_execute seed None dbg acts st))
  = length (invocations acts).
Proof.
  revert st. induction acts as [|a rest IH]; intros st; [done|].
  cbn [run_events]. unfold executes in *. rewrite omap_app, length_app, IH.
  destruct a as [refs ctx|s|dt].
  - fold (executes (fn_events seed None dbg refs ctx st)).
    rewrite fn_events_executes, rejected_None.
    change (invocations (Invoke refs ctx :: rest)) with ((refs, ctx) :: invocations rest).
    cbn [length]. lia.
  - change (invocations (SetShuffleStrategy s :: rest)) with (invocations rest).
    cbn [omap list_omap length]. lia.
  - change (invocations (Sleep dt :: rest)) with (invocations rest).
    cbn [omap list_omap length]. lia.
Qed.

Lemma executed_at_once_app evs1 evs2 :
  executed_at_once evs1 -> executed_at_once evs2 -> executed_at_once (evs1 ++ evs2).
Proof. induction 1; intros H2; cbn; [done|constructor; auto..]. Qed.

Lemma fn_events_executed_at_once seed num_outputs dbg refs ctx st :
  executed_at_once (fn_events seed num_outputs dbg refs ctx st).
Proof.
  unfold fn_events.
  destruct (rejected st num_outputs), (upstream_map_transformer ctx); cbn;
    repeat constructor.
Qed.

Lemma run_events_executed_at_once seed num_outputs dbg acts st :
  executed_at_once (run_events scheduler_execute seed num_outputs dbg acts st).
Proof.
  revert st. induction acts as [|a rest IH]; intros st; [constructor|].
  cbn [run_events]. apply executed_at_once_app; [apply IH|].
  destruct a as [refs ctx|s|dt]; [apply fn_events_executed_at_once|constructor..].
Qed.

(** X10. Every scheduler that a run constructs is executed, once and
    with the spec it was constructed with, before the next one is
    constructed: in the calls the run adds, each construction of a
    scheduler is followed at once by the call of [execute] on it, and
    every call of [execute] comes right after the construction of its
    scheduler.  A run makes at most one call of [execute] per invocation,
    and with [num_outputs] omitted exactly one, whatever the strategy
    becomes in between. *)
Theorem schedulers_are_executed_once seed num_outputs dbg acts st :
  exists evs,
    trace (run (fn scheduler_execute seed num_outputs dbg) acts st).2 = evs ++ trace st
    /\ executed_at_once evs
    /\ schedulers evs = map fst (executes evs)
    /\ (length (executes evs) <= length (invocations acts))%nat
    /\ (num_outputs = None -> length (executes evs) = length (invocations acts)).
Proof.
  eexists. split; [apply run_trace|].
  split; [apply run_events_executed_at_once|].
  split; [apply run_events_schedulers_executes|].
  split; [apply run_events_executes_count|].
  intros ->. apply run_events_executes_default.
Qed.

Lemma fn_transformers_kept seed num_outputs dbg refs ctx st :
  (forall k spec call h, (scheduler_execute k spec call h).2 = h) ->
  transformers (fn scheduler_execute seed num_outputs dbg refs ctx st).2
  = transformers (fusion_state ctx st).
Proof.
  intros Hkeep. destruct (rejected st num_outputs) eqn:Hr.
  - by rewrite (fn_rejected _ _ _ _ _ _ _ Hr).
  - rewrite (fn_executed _ _ _ _ _ _ _ Hr). cbn. apply Hkeep.
Qed.

Lemma fn_clock seed num_outputs dbg refs ctx st :
  clock_ns (fn scheduler_execute seed num_outputs dbg refs ctx st).2 = clock_ns st.
Proof.
  destruct (rejected st num_outputs) eqn:Hr.
  - by rewrite (fn_rejected _ _ _ _ _ _ _ Hr).
  - by rewrite (fn_executed _ _ _ _ _ _ _ Hr).
Qed.

(** X11. What an invocation itself changes in the store.  With schedulers
    that leave the transformers as they are, an invocation, returning or
    raising, changes no transformer but the one its context carries, of
    which it keeps the transform functions and sets the limit to infinity;
    the [DataContext] and the clock are as before. *)
Theorem invocation_touches_only_its_transformer seed num_outputs dbg refs ctx st :
  (forall k spec call h, (scheduler_execute k spec call h).2 = h) ->
  (forall b, upstream_map_transformer ctx <> Some b ->
     transformers (fn scheduler_execute seed num_outputs dbg refs ctx st).2 !! b
     = transformers st !! b)
  /\ (forall a, upstream_map_transformer ctx = Some a ->
        transformers (fn scheduler_execute seed num_outputs dbg refs ctx st).2 !! a
        = (fun mt => {| transform_fns := transform_fns mt;
                        mt_target_max_block_size := Some FloatInf |})
            <$> transformers st !! a)
  /\ data_context (fn scheduler_execute seed num_outputs dbg refs ctx st).2
     = data_context st
  /\ clock_ns (fn scheduler_execute seed num_outputs dbg refs ctx st).2 = clock_ns st.
Proof.
  intros Hkeep. rewrite (fn_transformers_kept _ _ _ _ _ _ Hkeep), fn_data_context, fn_clock.
  unfold fusion_state. repeat split.
  - intros b Hb. destruct (upstream_map_transformer ctx) as [a|]; [|done].
    cbn. apply lookup_alter_ne. congruence.
  - intros a ->. cbn. apply lookup_alter_eq.
Qed.

Lemma alter_set_limit_idemp size a (h : gmap addr MapTransformer) :
  alter (set_limit size) a (alter (set_limit size) a h) = alter (set_limit size) a h.
Proof.
  apply map_eq. intros i. destruct (decide (a = i)) as [->|Hne].
  - rewrite !lookup_alter_eq. by destruct (h !! i).
  - by rewrite !lookup_alter_ne.
Qed.

(** X12. The override is idempotent on the store: with schedulers that
    leave the transformers as they are, invoking the transform a second
    time with the same context leaves the transformers and the binding of
    [ray_remote_args] as the first invocation left them. *)
Theorem repeated_invocation_keeps_store seed num_outputs dbg refs refs' ctx st :
  (forall k spec call h, (scheduler_execute k spec call h).2 = h) ->
  transformers
    (fn scheduler_execute seed num_outputs dbg refs' ctx
       (fn scheduler_execute seed num_outputs dbg refs ctx st).2).2
  = transformers (fn scheduler_execute seed num_outputs dbg refs ctx st).2
  /\ ray_remote_args
       (fn scheduler_execute seed num_outputs dbg refs' ctx
          (fn scheduler_execute seed num_outputs dbg refs ctx st).2).2
     = ray_remote_args (fn scheduler_execute seed num_outputs dbg refs ctx st).2.
Proof.
  intros Hkeep. split.
  - pose proof (fn_transformers_kept seed num_outputs dbg refs ctx st Hkeep) as H1.
    rewrite (fn_transformers_kept _ _ _ _ _ _ Hkeep), H1.
    unfold fusion_state at 1. unfold fusion_state in H1 |- *.
    destruct (upstream_map_transformer ctx) as [a|]; cbn in *; [|done].
    rewrite H1. apply alter_set_limit_idemp.
  - rewrite fn_cell, fusion_state_cell, fn_cell, fusion_state_cell.
    by destruct (upstream_map_transformer ctx).
Qed.

(** X13. Retrying an invocation repeats its calls.  Under the same
    strategy, two invocations with the same bundles and the same context
    construct the same task spec and the same scheduler and pass the same
    arguments to [execute], whatever the clock and the transformers are,
    provided the context carries a transformer or [ray_remote_args] is
    bound to the same value. *)
Theorem retry_repeats_the_calls seed num_outputs dbg refs ctx st1 st2 :
  shuffle_strategy (data_context st1) = shuffle_strategy (data_context st2) ->
  upstream_map_transformer ctx <> None \/ ray_remote_args st1 = ray_remote_args st2 ->
  exists evs,
    trace (fn scheduler_execute seed num_outputs dbg refs ctx st1).2 = evs ++ trace st1
    /\ trace (fn scheduler_execute seed num_outputs dbg refs ctx st2).2 = evs ++ trace st2.
Proof.
  intros Hs Hc. exists (fn_events seed num_outputs dbg refs ctx st1).
  split; [apply fn_trace|]. rewrite fn_trace. f_equal.
  unfold fn_events, rejected, built_call. rewrite !fusion_state_cell, Hs.
  destruct (upstream_map_transformer ctx) as [a|]; [done|].
  destruct Hc as [?| ->]; done.
Qed.

End Further.

(** ** The further properties on concrete inputs *)

Lemma echo_execute_keeps_store k spec call h :
  (echo_execute k spec call h).2 = h.
Proof. reflexivity. Defined.

Lemma scheduler_follows_current_strategy_witness :
  (SORT_SHUFFLE_PUSH_BASED <> SORT_SHUFFLE_PUSH_BASED \/ @None Z = None)
  /\ exists k spec call,
       specs_built (trace (run (fn echo_execute 7 None None)
                             [SetShuffleStrategy SORT_SHUFFLE_PUSH_BASED;
                              Invoke [bundle 2] ctx_plain] st_pull).2)
         = spec :: specs_built (trace st_pull)
       /\ schedulers (trace (run (fn echo_execute 7 None None)
                              [SetShuffleStrategy SORT_SHUFFLE_PUSH_BASED;
                               Invoke [bundle 2] ctx_plain] st_pull).2)
          = (k, spec) :: schedulers (trace st_pull)
       /\ executes (trace (run (fn echo_execute 7 None None)
                            [SetShuffleStrategy SORT_SHUFFLE_PUSH_BASED;
                             Invoke [bundle 2] ctx_plain] st_pull).2)
          = (k, spec, call) :: executes (trace st_pull)
       /\ (k = PushBasedShuffleTaskScheduler
           <-> SORT_SHUFFLE_PUSH_BASED = SORT_SHUFFLE_PUSH_BASED).
Proof.
  split; [by right|].
  apply (scheduler_follows_current_strategy echo_execute 7 None None [bundle 2]
           ctx_plain SORT_SHUFFLE_PUSH_BASED st_pull).
  by right.
Defined.

Lemma rejection_waits_for_invocation_witness :
  shuffle_strategy (data_context st_push) = SORT_SHUFFLE_PUSH_BASED
  /\ Forall (fun a => match a with
                      | SetShuffleStrategy s => s = SORT_SHUFFLE_PUSH_BASED
                      | _ => True
                      end)
       [Invoke [bundle 2] ctx_fused; Sleep 3;
        SetShuffleStrategy SORT_SHUFFLE_PUSH_BASED; Invoke [bundle 1] ctx_plain]
  /\ exists f st1,
       generate_random_shuffle_fn echo_execute None (Some 4) caller_args None st_push
         = (Ok f, st1)
       /\ specs_built (trace st1) = specs_built (trace st_push)
       /\ schedulers (trace st1) = schedulers (trace st_push)
       /\ transformers st1 = transformers st_push
       /\ (forall refs ctx,
             (f refs ctx st1).1 = Raise (NotImplementedError push_based_msg))
       /\ (run f [Invoke [bundle 2] ctx_fused; Sleep 3;
                  SetShuffleStrategy SORT_SHUFFLE_PUSH_BASED; Invoke [bundle 1] ctx_plain]
             st1).1
          = map (fun a => match a with
                          | Invoke _ _ => Some (Raise (NotImplementedError push_based_msg))
                          | _ => None
                          end)
              [Invoke [bundle 2] ctx_fused; Sleep 3;
               SetShuffleStrategy SORT_SHUFFLE_PUSH_BASED; Invoke [bundle 1] ctx_plain]
       /\ schedulers
            (trace (run f [Invoke [bundle 2] ctx_fused; Sleep 3;
                           SetShuffleStrategy SORT_SHUFFLE_PUSH_BASED;
                           Invoke [bundle 1] ctx_plain] st1).2)
          = schedulers (trace st_push)
       /\ executes
            (trace (run f [Invoke [bundle 2] ctx_fused; Sleep 3;
                           SetShuffleStrategy SORT_SHUFFLE_PUSH_BASED;
                           Invoke [bundle 1] ctx_plain] st1).2)
          = executes (trace st_push).
Proof.
  split; [reflexivity|].
  assert (Hacts : Forall (fun a => match a with
                                   | SetShuffleStrategy s => s = SORT_SHUFFLE_PUSH_BASED
                                   | _ => True
                                   end)
                    [Invoke [bundle 2] ctx_fused; Sleep 3;
                     SetShuffleStrategy SORT_SHUFFLE_PUSH_BASED;
                     Invoke [bundle 1] ctx_plain])
    by (repeat constructor).
  split; [exact Hacts|].
  exact (rejection_waits_for_invocation echo_execute None 4 caller_args None _ st_push
           eq_refl Hacts).
Defined.

Lemma zero_num_outputs_falls_back_witness :
  shuffle_strategy (data_context st_pull) <> SORT_SHUFFLE_PUSH_BASED
  /\ exists spec call,
       executes (trace (fn echo_execute 7 (Some 0) None [bundle 2; bundle 3] ctx_plain
                          st_pull).2)
         = (PullBasedShuffleTaskScheduler, spec, call) :: executes (trace st_pull)
       /\ output_num_blocks call
          = Z.of_nat (list_sum (map (fun r => length (blocks r)) [bundle 2; bundle 3])).
Proof.
  split; [discriminate|].
  apply (zero_num_outputs_falls_back echo_execute 7 None [bundle 2; bundle 3] ctx_plain
           st_pull).
  discriminate.
Defined.

Lemma caller_args_until_first_fusion_witness :
  fused_invocations [Invoke [bundle 2] ctx_plain; Sleep 9; Invoke [bundle 1] ctx_plain] = []
  /\ exists f st1,
       generate_random_shuffle_fn echo_execute (Some 7) None caller_args None st_pull
         = (Ok f, st1)
       /\ ray_remote_args
            (run f [Invoke [bundle 2] ctx_plain; Sleep 9; Invoke [bundle 1] ctx_plain]
               st1).2
          = caller_args
       /\ exists evs,
            trace (run f [Invoke [bundle 2] ctx_plain; Sleep 9; Invoke [bundle 1] ctx_plain]
                     st1).2
            = evs ++ trace st1
            /\ Forall (fun p => map_ray_remote_args p.2 = caller_args
                                /\ reduce_ray_remote_args p.2 = caller_args)
                 (executes evs).
Proof.
  split; [reflexivity|].
  apply (caller_args_until_first_fusion echo_execute (Some 7) None caller_args None
           [Invoke [bundle 2] ctx_plain; Sleep 9; Invoke [bundle 1] ctx_plain] st_pull).
  reflexivity.
Defined.

Lemma invocation_touches_only_its_transformer_witness :
  (forall k spec call h, (echo_execute k spec call h).2 = h)
  /\ transformers (fn echo_execute 7 None None [bundle 2] ctx_fused st_pull).2 !! 1%nat
     = (fun mt => {| transform_fns := transform_fns mt;
                     mt_target_max_block_size := Some FloatInf |})
         <$> transformers st_pull !! 1%nat
  /\ transformers (fn echo_execute 7 None None [bundle 2] ctx_fused st_pull).2 !! 2%nat
     = transformers st_pull !! 2%nat.
Proof.
  split; [exact echo_execute_keeps_store|].
  destruct (invocation_touches_only_its_transformer echo_execute 7 None None [bundle 2]
              ctx_fused st_pull echo_execute_keeps_store) as (Hother & Hown & _).
  split; [exact (Hown 1%nat eq_refl)|].
  apply Hother. discriminate.
Defined.

Lemma repeated_invocation_keeps_store_witness :
  (forall k spec call h, (echo_execute k spec call h).2 = h)
  /\ transformers
       (fn echo_execute 7 None None [bundle 3] ctx_fused
          (fn echo_execute 7 None None [bundle 2] ctx_fused st_pull).2).2
     = transformers (fn echo_execute 7 None None [bundle 2] ctx_fused st_pull).2
  /\ ray_remote_args
       (fn echo_execute 7 None None [bundle 3] ctx_fused
          (fn echo_execute 7 None None [bundle 2] ctx_fused st_pull).2).2
     = ray_remote_args (fn echo_execute 7 None None [bundle 2] ctx_fused st_pull).2.
Proof.
  split; [exact echo_execute_keeps_store|].
  apply (repeated_invocation_keeps_store echo_execute 7 None None [bundle 2] [bundle 3]
           ctx_fused st_pull echo_execute_keeps_store).
Defined.

Lemma retry_repeats_the_calls_witness :
  shuffle_strategy (data_context st_pull)
  = shuffle_strategy (data_context (fn echo_execute 7 None None [bundle 2] ctx_fused
                                      st_pull).2)
  /\ (upstream_map_transformer ctx_fused <> None
      \/ ray_remote_args st_pull
         = ray_remote_args (fn echo_execute 7 None None [bundle 2] ctx_fused st_pull).2)
  /\ exists evs,
       trace (fn echo_execute 7 None None [bundle 2] ctx_fused st_pull).2
         = evs ++ trace st_pull
       /\ trace (fn echo_execute 7 None None [bundle 2] ctx_fused
                   (fn echo_execute 7 None None [bundle 2] ctx_fused st_pull).2).2
          = evs ++ trace (fn echo_execute 7 None None [bundle 2] ctx_fused st_pull).2.
Proof.
  split; [reflexivity|]. split; [left; discriminate|].
  apply (retry_repeats_the_calls echo_execute 7 None None [bundle 2] ctx_fused st_pull
           (fn echo_execute 7 None None [bundle 2] ctx_fused st_pull).2).
  - reflexivity.
  - left. discriminate.
Defined.
